(** * Jsonify: the JSON round-trip projection of a type

    A shallow embedding of [source/jsonify.d.ts].  The program is a
    type-level function: [Jsonify<T>] is evaluated by the TypeScript checker.
    Types are embedded as data ([Shape]), every conditional type [X extends Y]
    of the source as a boolean test on that data, every mapped type as a list
    traversal, and [never] as the empty union.

    Scope of the embedding.  A [Shape] is a union of members ([Atom]s), the
    way the checker stores a union: flat, [never] being the union without
    members.  The list of members is read as a set.  Function shapes are the
    source's own function type [(...args: any[]) => any].  A record is an
    object type literal whose properties hold shapes of this model.  The
    test of line 15 asks whether the function type is assignable to a value
    shape; a function has the members of [Function] and [Object] ([name],
    [length], ...), so that test looks at the names and shapes of the
    properties of a record.  An object with a [toJSON(): J] method is the
    shape [AToJSON J]; a record that holds function shapes under the names
    of the methods of a built-in interface ([toJSON], [valueOf], ...) is
    read as a plain record, not as that interface. *)

From Stdlib Require Import List String ZArith Bool Lia.
Import ListNotations.
Local Open Scope string_scope.
Local Open Scope list_scope.

(** ** Shapes *)

(** A property key: [keyof T] yields string keys and symbol keys. *)
Inductive Key : Type :=
| KStr (name : string)
| KSym (name : string).

Definition Key_eq_dec (a b : Key) : {a = b} + {a <> b}.
Proof. decide equality; apply string_dec. Defined.

Definition Key_eqb (a b : Key) : bool :=
  if Key_eq_dec a b then true else false.

Unset Elimination Schemes.

(** The members of a union.  [AFun] is [(...args: any[]) => any], [AToJSON J]
    is [{toJSON(): J}], [ABoxedNumber], [ABoxedString] and [ABoxedBoolean] are
    [Number], [String] and [Boolean], [ATypedArray] is a member of the union
    [TypedArray] of [./typed-array], and [AStringNumberRecord] is
    [Record<string, number>]. *)
Inductive Atom : Type :=
| AString | ANumber | ABoolean | ANull
| AStrLit (s : string) | ANumLit (n : Z) | ABoolLit (b : bool)
| APosInf | ANegInf
| AUndefined | ASymbol | ABigint | AFun
| AToJSON (J : list Atom)
| ABoxedNumber | ABoxedString | ABoxedBoolean
| AMap | ASet | ATypedArray
| AArray (elem : list Atom)
| ATuple (elems : list (list Atom))
| ARecord (props : list (Key * bool * list Atom))
| AStringNumberRecord.

Set Elimination Schemes.

(** A shape is the union of its members; [never] has none. *)
Definition Shape : Type := list Atom.

(** A property of a record: key, optional marker ([key?:]), declared shape. *)
Definition Property : Type := (Key * bool * Shape)%type.

Definition never : Shape := [].
Definition Union (members : list Shape) : Shape := List.concat members.

Definition pkey (p : Property) : Key := fst (fst p).
Definition poptional (p : Property) : bool := snd (fst p).
Definition pshape (p : Property) : Shape := snd p.

(** [keyof T] for the record with properties [T]. *)
Definition keys (T : list Property) : list Key := map pkey T.

(** Structural induction through the nested lists. *)
Section AtomInduction.
Variable P : Atom -> Prop.
Hypothesis HString : P AString.
Hypothesis HNumber : P ANumber.
Hypothesis HBoolean : P ABoolean.
Hypothesis HNull : P ANull.
Hypothesis HStrLit : forall s, P (AStrLit s).
Hypothesis HNumLit : forall n, P (ANumLit n).
Hypothesis HBoolLit : forall b, P (ABoolLit b).
Hypothesis HPosInf : P APosInf.
Hypothesis HNegInf : P ANegInf.
Hypothesis HUndefined : P AUndefined.
Hypothesis HSymbol : P ASymbol.
Hypothesis HBigint : P ABigint.
Hypothesis HFun : P AFun.
Hypothesis HToJSON : forall J, Forall P J -> P (AToJSON J).
Hypothesis HBoxedNumber : P ABoxedNumber.
Hypothesis HBoxedString : P ABoxedString.
Hypothesis HBoxedBoolean : P ABoxedBoolean.
Hypothesis HMap : P AMap.
Hypothesis HSet : P ASet.
Hypothesis HTypedArray : P ATypedArray.
Hypothesis HArray : forall e, Forall P e -> P (AArray e).
Hypothesis HTuple : forall es, Forall (Forall P) es -> P (ATuple es).
Hypothesis HRecord :
  forall ps, Forall (fun p : Property => Forall P (pshape p)) ps ->
             P (ARecord ps).
Hypothesis HStringNumberRecord : P AStringNumberRecord.

Fixpoint Atom_ind (a : Atom) : P a :=
  let shape_ind :=
    fix go (s : list Atom) : Forall P s :=
      match s with
      | [] => Forall_nil P
      | x :: r => Forall_cons x (Atom_ind x) (go r)
      end in
  match a with
  | AString => HString | ANumber => HNumber | ABoolean => HBoolean
  | ANull => HNull
  | AStrLit s => HStrLit s | ANumLit n => HNumLit n | ABoolLit b => HBoolLit b
  | APosInf => HPosInf | ANegInf => HNegInf
  | AUndefined => HUndefined | ASymbol => HSymbol | ABigint => HBigint
  | AFun => HFun
  | AToJSON J => HToJSON J (shape_ind J)
  | ABoxedNumber => HBoxedNumber | ABoxedString => HBoxedString
  | ABoxedBoolean => HBoxedBoolean
  | AMap => HMap | ASet => HSet | ATypedArray => HTypedArray
  | AArray e => HArray e (shape_ind e)
  | ATuple es =>
      HTuple es ((fix go (l : list (list Atom)) : Forall (Forall P) l :=
                 match l with
                 | [] => Forall_nil _
                 | s :: r => Forall_cons s (shape_ind s) (go r)
                 end) es)
  | ARecord ps =>
      HRecord ps ((fix go (l : list Property)
                 : Forall (fun p : Property => Forall P (pshape p)) l :=
                  match l with
                  | [] => Forall_nil _
                  | p :: r =>
                      Forall_cons (P := fun p : Property => Forall P (pshape p))
                        p (shape_ind (pshape p)) (go r)
                  end) ps)
  | AStringNumberRecord => HStringNumberRecord
  end.
End AtomInduction.

(** ** Assignability tests of the source *)

(** [a extends NotJsonable], line 8:
    [((...args: any[]) => any) | undefined | symbol]. *)
Definition NotJsonable (a : Atom) : bool :=
  match a with
  | AFun | AUndefined | ASymbol => true
  | _ => false
  end.

Definition bigint (a : Atom) : bool :=
  match a with ABigint => true | _ => false end.

Definition undefined (a : Atom) : bool :=
  match a with AUndefined => true | _ => false end.

Definition symbol (a : Atom) : bool :=
  match a with ASymbol => true | _ => false end.

(** [Key extends symbol]. *)
Definition symbol_key (k : Key) : bool :=
  match k with KSym _ => true | KStr _ => false end.

(** Modelled from the spec: [PositiveInfinity | NegativeInfinity] of
    [./numeric], the two special numeric shapes. *)
Definition Infinity (a : Atom) : bool :=
  match a with APosInf | ANegInf => true | _ => false end.

(** Modelled from the spec: [JsonPrimitive] of [./basic], the primitive
    shapes string, number, boolean, null; their literals, the infinities
    among them, are assignable to them. *)
Definition JsonPrimitive (a : Atom) : bool :=
  match a with
  | AString | ANumber | ABoolean | ANull
  | AStrLit _ | ANumLit _ | ABoolLit _ | APosInf | ANegInf => true
  | _ => false
  end.

(** [a extends object]: every member that is not a primitive. *)
Definition object (a : Atom) : bool :=
  match a with
  | AFun | AToJSON _ | ABoxedNumber | ABoxedString | ABoxedBoolean
  | AMap | ASet | ATypedArray | AArray _ | ATuple _ | ARecord _
  | AStringNumberRecord => true
  | _ => false
  end.

(** Modelled from the spec: [JsonValue] of [./basic], the general JSON-value
    shape: a JSON primitive, an array of JSON values, or a record of JSON
    values, optional keys allowed.  [JsonValue_member a] is
    [a extends JsonValue]; a string index signature does not look at the
    properties under symbol keys, and the built-in interfaces and objects
    with methods are not assignable to it. *)
Fixpoint JsonValue_member (a : Atom) : bool :=
  if JsonPrimitive a then true
  else
    match a with
    | AArray e => forallb JsonValue_member e
    | ATuple es => forallb (forallb JsonValue_member) es
    | ARecord ps =>
        forallb (fun p : Property =>
                   symbol_key (pkey p) ||
                   forallb JsonValue_member (pshape p)) ps
    | AStringNumberRecord => true
    | _ => false
    end.

(** [S extends U] for a union [S] taken as a whole (no distribution): every
    member is assignable; [never] is assignable to everything. *)
Definition extends (S : Shape) (U : Atom -> bool) : bool := forallb U S.

(** [(() => J) extends (() => JsonValue)], line 97. *)
Definition JsonValue (J : Shape) : bool := extends J JsonValue_member.

(** [Extract<T, U>] and [Exclude<T, U>] distribute over the members. *)
Definition Extract (T : Shape) (U : Atom -> bool) : Shape := filter U T.
Definition Exclude (T : Shape) (U : Atom -> bool) : Shape :=
  filter (fun a => negb (U a)) T.

(** [[X] extends [never]]. *)
Definition is_never (X : Shape) : bool :=
  match X with [] => true | _ :: _ => false end.

(** [undefined extends S]: [undefined] is one of the members. *)
Definition undefined_extends (S : Shape) : bool := existsb undefined S.

(** What a member of a built-in interface holds: a function (a method), the
    [Function] interface itself, a string, a number, or [any]. *)
Inductive Source : Type :=
| FromFunction | FromFunctionObject | FromString | FromNumber | FromAny.

Definition one_of (names : list string) (name : string) : bool :=
  existsb (String.eqb name) names.

Definition first_some (a b : option Source) : option Source :=
  match a with Some _ => a | None => b end.

(** The members of the interfaces [Object], [Function], [String] and
    [Number] of the standard library (ES2020), by name; a key that is not a
    plain name (an index, a symbol) is no member here. *)
Definition Object_member (name : string) : option Source :=
  if String.eqb name "constructor" then Some FromFunctionObject
  else if one_of ["toString"; "toLocaleString"; "valueOf"; "hasOwnProperty";
                  "isPrototypeOf"; "propertyIsEnumerable"] name
       then Some FromFunction
  else None.

Definition Function_member (name : string) : option Source :=
  if one_of ["apply"; "call"; "bind"; "toString"] name then Some FromFunction
  else if one_of ["prototype"; "arguments"] name then Some FromAny
  else if String.eqb name "length" then Some FromNumber
  else if String.eqb name "caller" then Some FromFunctionObject
  else if String.eqb name "name" then Some FromString
  else None.

Definition String_member (name : string) : option Source :=
  if String.eqb name "length" then Some FromNumber
  else if one_of ["toString"; "charAt"; "charCodeAt"; "concat"; "indexOf";
                  "lastIndexOf"; "localeCompare"; "match"; "replace";
                  "search"; "slice"; "split"; "substring"; "toLowerCase";
                  "toLocaleLowerCase"; "toUpperCase"; "toLocaleUpperCase";
                  "trim"; "substr"; "valueOf"; "codePointAt"; "includes";
                  "endsWith"; "normalize"; "repeat"; "startsWith"; "anchor";
                  "big"; "blink"; "bold"; "fixed"; "fontcolor"; "fontsize";
                  "italics"; "link"; "small"; "strike"; "sub"; "sup";
                  "padStart"; "padEnd"; "trimEnd"; "trimStart"; "trimLeft";
                  "trimRight"; "matchAll"] name
       then Some FromFunction
  else None.

Definition Number_member (name : string) : option Source :=
  if one_of ["toString"; "toFixed"; "toExponential"; "toPrecision";
             "valueOf"; "toLocaleString"] name
  then Some FromFunction
  else None.

(** The properties a source declares itself; a function type declares
    none, its members come from [Function]. *)
Definition declared (src : Source) (name : string) : option Source :=
  match src with
  | FromFunctionObject => Function_member name
  | FromString => String_member name
  | FromNumber => Number_member name
  | FromFunction | FromAny => None
  end.

(** The property a source has under a name, those of [Object] included. *)
Definition member (src : Source) (name : string) : option Source :=
  match src with
  | FromFunction | FromFunctionObject =>
      first_some (Function_member name) (Object_member name)
  | FromString => first_some (String_member name) (Object_member name)
  | FromNumber => first_some (Number_member name) (Object_member name)
  | FromAny => None
  end.

Definition declares (src : Source) (k : Key) : bool :=
  match k with
  | KStr name => match declared src name with Some _ => true | None => false end
  | KSym _ => false
  end.

(** [src] is assignable to the member [a] of a union.  To a record: the
    record without properties takes every value; a record whose properties
    are all optional (a weak type) must share a property with those the
    source declares; every property of the record must be optional or a
    member of the source, and a member must be assignable to the shape the
    property declares ([any] to every shape but [never]). *)
Fixpoint assignable_from (a : Atom) (src : Source) {struct a} : bool :=
  match src with
  | FromAny => true
  | _ =>
      match a with
      | AFun => match src with FromFunction => true | _ => false end
      | AString | ABoxedString =>
          match src with FromString => true | _ => false end
      | ANumber | ABoxedNumber =>
          match src with FromNumber => true | _ => false end
      | ARecord ps =>
          match ps with
          | [] => true
          | _ :: _ =>
              (negb (forallb poptional ps) ||
               existsb (fun p : Property => declares src (pkey p)) ps) &&
              forallb (fun p : Property =>
                         match pkey p with
                         | KSym _ => poptional p
                         | KStr name =>
                             match member src name with
                             | None => poptional p
                             | Some FromAny =>
                                 poptional p || negb (match pshape p with
                                                      | [] => true
                                                      | _ :: _ => false
                                                      end)
                             | Some m =>
                                 existsb (fun b => assignable_from b m)
                                   (pshape p)
                             end
                         end) ps
          end
      | _ => false
      end
  end.

(** [[(...args: any[]) => any] extends [S]], line 15: the function type is
    assignable to one of the members of [S]: to a function shape, to the
    record without properties (every non-nullish value is a [{}]), or to a
    record made of members of [Function] and [Object], such as
    [{name: string}] or [{length: number}]. *)
Definition function_assignable_to (a : Atom) : bool :=
  assignable_from a FromFunction.

Definition function_extends (S : Shape) : bool :=
  existsb function_assignable_to S.

(** What reading a property gives: an optional property reads as its
    declared shape or [undefined]. *)
Definition read (p : Property) : Shape :=
  if poptional p then pshape p ++ [AUndefined] else pshape p.

(** [Type[Key]], the indexed access; [never] for a key the record lacks. *)
Fixpoint index (T : list Property) (key : Key) : Shape :=
  match T with
  | [] => never
  | p :: rest => if Key_eqb (pkey p) key then read p else index rest key
  end.

(** ** The key filters, lines 11-29 *)

(** [None] is [never], [Some key] is the key. *)
Definition BaseKeyFilter (T : list Property) (key : Key) : option Key :=
  if symbol_key key then None
  else if extends (index T key) symbol then None
  else if function_extends (index T key) then None
  else Some key.

Definition RequiredKeyFilter (T : list Property) (key : Key) : option Key :=
  if undefined_extends (index T key) then None
  else BaseKeyFilter T key.

Definition OptionalKeyFilter (T : list Property) (key : Key) : option Key :=
  if undefined_extends (index T key) then
    if extends (index T key) undefined then None
    else BaseKeyFilter T key
  else None.

(** ** Imported helper types *)

(** Modelled from the spec: [EmptyObject] of [./empty-object], the
    empty-record shape that map-like and set-like shapes project to. *)
Definition EmptyObject : Shape := [ARecord []].

(** Modelled from the spec: [Merge] of [./merge]; the result keeps all keys
    of both halves, the first (required) half winning on a shared key. *)
Definition Merge (first second : list Property) : list Property :=
  first ++
  filter (fun p => negb (existsb (Key_eqb (pkey p)) (keys first))) second.

(** ** Jsonify, lines 88-113 *)

(** [a extends NotJsonable | bigint], the union of line 92. *)
Definition rejected (a : Atom) : bool := NotJsonable a || bigint a.

(** The outer test of line 92 around a distributive body [member]. *)
Definition guarded (member : Atom -> Shape) (T : Shape) : Shape :=
  if is_never (Extract T rejected)
  then flat_map member T
  else never.

(** [guarded member (Exclude T undefined)], written as one traversal of [T]
    ([guarded_defined_Exclude] below). *)
Definition guarded_defined (member : Atom -> Shape) (T : Shape) : Shape :=
  if forallb (fun a => undefined a || negb (rejected a)) T
  then flat_map (fun a => if undefined a then [] else member a) T
  else never.

(** Line 107, the template of the mapped type over an array or tuple. *)
Definition element (member : Atom -> Shape) (TI : Shape) : Shape :=
  if extends TI NotJsonable then [ANull] else guarded member TI.

(** Lines 109 and 110, the two mapped types over the keys of the record [T].
    A mapped type over [keyof T] keeps the modifier of each property and
    line 110 adds [?].  The traversal goes over the properties themselves
    and projects the declared shape of each; for a record with distinct keys
    this is [Jsonify<T[Key]>], respectively
    [Jsonify<Exclude<T[Key], undefined>>] ([required_half_source] and
    [optional_half_source] below). *)
Definition required_half (member : Atom -> Shape) (T : list Property)
  : list Property :=
  flat_map (fun p : Property =>
              match RequiredKeyFilter T (pkey p) with
              | Some k => [(k, poptional p, guarded member (pshape p))]
              | None => []
              end) T.

Definition optional_half (member : Atom -> Shape) (T : list Property)
  : list Property :=
  flat_map (fun p : Property =>
              match OptionalKeyFilter T (pkey p) with
              | Some k => [(k, true, guarded_defined member (pshape p))]
              | None => []
              end) T.

(** Lines 108-111: the two halves merged. *)
Definition record_with (member : Atom -> Shape) (T : list Property)
  : list Property :=
  Merge (required_half member T) (optional_half member T).

(** The distributive part of [Jsonify], lines 93-112, for one member of the
    union [T].  The mapped types of lines 109-110 keep the index signature
    of [Record<string, number>], and give a record without properties for a
    function shape, which has no keys (line 92 never lets one through). *)
Fixpoint Jsonify_member (a : Atom) : Shape :=
  if Infinity a then [ANull]
  else if JsonPrimitive a then [a]
  else if object a then
    match a with
    | AToJSON J => if JsonValue J then J else guarded Jsonify_member J
    | ABoxedNumber => [ANumber]
    | ABoxedString => [AString]
    | ABoxedBoolean => [ABoolean]
    | AMap | ASet => EmptyObject
    | ATypedArray => [AStringNumberRecord]
    | AArray e => [AArray (element Jsonify_member e)]
    | ATuple es => [ATuple (map (element Jsonify_member) es)]
    | ARecord T => [ARecord (record_with Jsonify_member T)]
    | AStringNumberRecord => [AStringNumberRecord]
    | _ => [ARecord []]
    end
  else never.

Definition Jsonify (T : Shape) : Shape := guarded Jsonify_member T.

(** The properties of the projection of the record with properties [T]. *)
Definition Jsonify_record (T : list Property) : list Property :=
  record_with Jsonify_member T.

(** ** Notions used to state the properties *)

(** [Jsonify<T[I]>] under the test of line 107, for one element shape. *)
Definition Jsonify_element (E : Shape) : Shape :=
  if extends E NotJsonable then [ANull] else Jsonify E.

(** [S] is not [never] and all its members satisfy [U]: the shape is a [U]
    and nothing else. *)
Definition exactly (S : Shape) (U : Atom -> bool) : bool :=
  negb (is_never S) && extends S U.

(** The element rule in the words of the specification: an element that is
    a function, symbol, undefined or bigint shape becomes the null literal. *)
Definition element_as_specified (E : Shape) : Shape :=
  if exactly E rejected then [ANull] else Jsonify E.

(** The member is a function shape. *)
Definition function (a : Atom) : bool :=
  match a with AFun => true | _ => false end.

(** No key occurs twice. *)
Fixpoint distinct (ks : list Key) : bool :=
  match ks with
  | [] => true
  | k :: r => negb (existsb (Key_eqb k) r) && distinct r
  end.

(** The required properties are listed before the optional ones, the order
    in which [Merge] lists them. *)
Fixpoint required_first (ps : list Property) : bool :=
  match ps with
  | [] => true
  | p :: r => if poptional p then forallb poptional r else required_first r
  end.

(** The component shapes of a settled shape are not empty. *)
Definition inhabited (S : Shape) : bool := negb (is_never S).

(** A member that may be a target of the function type: a function shape,
    or a record all of whose required properties are named like members of
    [Function] or [Object] ([{}], [{name: string}], ...). *)
Definition function_target_candidate (a : Atom) : bool :=
  match a with
  | AFun => true
  | ARecord ps =>
      forallb (fun p : Property =>
                 poptional p ||
                 match pkey p with
                 | KStr name =>
                     match member FromFunction name with
                     | Some _ => true
                     | None => false
                     end
                 | KSym _ => false
                 end) ps
  | _ => false
  end.

(** A settled member: string, number, boolean, null, a finite literal, an
    array or tuple of settled inhabited element shapes, or a record with
    distinct string keys, required ones first, whose value shapes are
    settled, inhabited and include no candidate target of the function
    type. *)
Fixpoint settled_member (a : Atom) : bool :=
  match a with
  | AString | ANumber | ABoolean | ANull
  | AStrLit _ | ANumLit _ | ABoolLit _ => true
  | AArray e => inhabited e && forallb settled_member e
  | ATuple es =>
      forallb (fun E => inhabited E && forallb settled_member E) es
  | ARecord ps =>
      distinct (keys ps) && required_first ps &&
      forallb (fun p : Property =>
                 negb (symbol_key (pkey p)) &&
                 inhabited (pshape p) &&
                 negb (existsb function_target_candidate (pshape p)) &&
                 forallb settled_member (pshape p)) ps
  | _ => false
  end.

(** A settled shape: all its members are settled. *)
Definition settled (S : Shape) : bool := forallb settled_member S.

(** A member that the projection leaves as it is, provided it is settled. *)
Definition fixed (a : Atom) : Prop :=
  settled_member a = true -> Jsonify_member a = [a].

(** ** Sample shapes *)

(** The record [{a: string, b: undefined | number}]. *)
Definition sample_record : list Property :=
  [(KStr "a", false, [AString]); (KStr "b", false, [AUndefined; ANumber])].

(** The record [{a: string | function}]. *)
Definition string_or_function_record : list Property :=
  [(KStr "a", false, [AString; AFun])].

(** The record [{a: function}]. *)
Definition function_record : list Property := [(KStr "a", false, [AFun])].

(** The record [{a: undefined}]. *)
Definition undefined_record : list Property :=
  [(KStr "a", false, [AUndefined])].

(** [{a: string, b: undefined | number, c: [{toJSON(): string}, function]}] *)
Definition nested_record : Shape :=
  [ARecord [(KStr "a", false, [AString]);
            (KStr "b", false, [AUndefined; ANumber]);
            (KStr "c", false, [ATuple [[AToJSON [AString]]; [AFun]]])]].

(** [{toJSON(): PositiveInfinity}]: the conversion target is assignable to
    number, hence adopted as it is; projecting it again gives null. *)
Definition infinity_conversion : Shape := [AToJSON [APosInf]].

(** ** Further notions *)

(** The outer test of line 92 on a shape: no member is assignable to
    [NotJsonable | bigint]. *)
Definition accepted (S : Shape) : bool := is_never (Extract S rejected).

(** [J] behind [n] nested conversions:
    [{toJSON(): {toJSON(): ... J}}]. *)
Fixpoint conversions (n : nat) (J : Shape) : Shape :=
  match n with
  | O => J
  | S m => [AToJSON (conversions m J)]
  end.

(** The JSON-value shapes in the words of the specification: string,
    number, boolean, null (and their literals), arrays and tuples of such
    shapes, and records of such shapes under string keys, required or
    optional.  The infinities are not among them. *)
Fixpoint listed_member (a : Atom) : bool :=
  match a with
  | AString | ANumber | ABoolean | ANull
  | AStrLit _ | ANumLit _ | ABoolLit _ => true
  | AArray e => forallb listed_member e
  | ATuple es => forallb (forallb listed_member) es
  | ARecord ps =>
      forallb (fun p : Property =>
                 negb (symbol_key (pkey p)) &&
                 forallb listed_member (pshape p)) ps
  | AStringNumberRecord => true
  | _ => false
  end.

Definition listed (S : Shape) : bool := forallb listed_member S.

(** No custom conversion ([toJSON]) anywhere in the shape. *)
Fixpoint conversion_free_member (a : Atom) : bool :=
  match a with
  | AToJSON _ => false
  | AArray e => forallb conversion_free_member e
  | ATuple es => forallb (forallb conversion_free_member) es
  | ARecord ps =>
      forallb (fun p : Property =>
                 forallb conversion_free_member (pshape p)) ps
  | _ => true
  end.

Definition conversion_free (S : Shape) : bool :=
  forallb conversion_free_member S.

(** [{a: string, b: undefined | number} | [function, PositiveInfinity]]. *)
Definition conversion_free_sample : Shape :=
  [ARecord sample_record; ATuple [[AFun]; [APosInf]]].

(** The record [{user: {name: string}}]. *)
Definition user_record : list Property :=
  [(KStr "user", false, [ARecord [(KStr "name", false, [AString])]])].

(** [{a: string, b?: number} | null]. *)
Definition settled_sample : Shape :=
  [ARecord [(KStr "a", false, [AString]); (KStr "b", true, [ANumber])];
   ANull].

(** The records [{a?: string}] and [{a: string | undefined}]. *)
Definition optional_string_record : list Property :=
  [(KStr "a", true, [AString])].
Definition string_or_undefined_record : list Property :=
  [(KStr "a", false, [AString; AUndefined])].

(** The record [{a: bigint}]. *)
Definition bigint_record : list Property := [(KStr "a", false, [ABigint])].

(** * Properties *)

Ltac split_andb :=
  repeat match goal with
         | H : _ && _ = true |- _ =>
             let H1 := fresh H in
             apply andb_true_iff in H; destruct H as [H H1]
         end.

(** ** Lists *)

Section Lists.
Variables A B : Type.

Lemma forallb_flat_map (f : B -> bool) (g : A -> list B) (l : list A) :
  (forall x, In x l -> forallb f (g x) = true) ->
  forallb f (flat_map g l) = true.
Proof.
  induction l as [|x l IH]; intros H; simpl; [reflexivity|].
  rewrite forallb_app, (H x (or_introl eq_refl)), IH; [reflexivity|].
  intros y Hy. apply H. now right.
Qed.

Lemma forallb_filter (f g : A -> bool) (l : list A) :
  forallb f l = true -> forallb f (filter g l) = true.
Proof.
  rewrite !forallb_forall. intros H x Hx.
  apply filter_In in Hx. now apply H.
Qed.

Lemma flat_map_ext_In (f g : A -> list B) (l : list A) :
  (forall x, In x l -> f x = g x) -> flat_map f l = flat_map g l.
Proof.
  induction l as [|x l IH]; intros H; simpl; [reflexivity|].
  rewrite (H x (or_introl eq_refl)), IH; [reflexivity|].
  intros y Hy. apply H. now right.
Qed.

Lemma flat_map_through (h : A -> B) (f : A -> list A) (g : B -> list A)
      (l : list A) :
  (forall x, In x l -> f x = g (h x)) ->
  flat_map f l = flat_map g (map h l).
Proof.
  induction l as [|x l IH]; intros H; simpl; [reflexivity|].
  rewrite (H x (or_introl eq_refl)), IH; [reflexivity|].
  intros y Hy. apply H. now right.
Qed.

Lemma flat_map_select (f : A -> bool) (l : list A) :
  flat_map (fun x => if f x then [x] else []) l = filter f l.
Proof.
  induction l as [|x l IH]; simpl; [reflexivity|].
  rewrite IH. now destruct (f x).
Qed.

Lemma flat_map_singleton (m : A -> list A) (l : list A) :
  (forall a, In a l -> m a = [a]) -> flat_map m l = l.
Proof.
  induction l as [|a T IH]; intros H; simpl; [reflexivity|].
  rewrite (H a (or_introl eq_refl)), IH; [reflexivity|].
  intros b Hb. apply H. now right.
Qed.
End Lists.

Lemma Key_eqb_eq (a b : Key) : Key_eqb a b = true <-> a = b.
Proof.
  unfold Key_eqb. destruct (Key_eq_dec a b); split; congruence.
Qed.

Lemma distinct_NoDup (ks : list Key) : distinct ks = true -> NoDup ks.
Proof.
  induction ks as [|k r IH]; simpl; intros H; constructor;
    apply andb_true_iff in H as [Hk Hr]; [|now apply IH].
  intros Hin. apply negb_true_iff in Hk.
  assert (E : existsb (Key_eqb k) r = true).
  { apply existsb_exists. exists k. split; [exact Hin|].
    now apply Key_eqb_eq. }
  congruence.
Qed.

(** ** The outer test *)

Section OuterTest.
Variable member : Atom -> Shape.

Lemma is_never_Extract (T : Shape) (U : Atom -> bool) :
  is_never (Extract T U) = forallb (fun a => negb (U a)) T.
Proof.
  unfold Extract.
  induction T as [|a T IH]; simpl; [reflexivity|].
  destruct (U a); simpl; [reflexivity | exact IH].
Qed.

Lemma guarded_accepts (T : Shape) :
  forallb (fun a => negb (rejected a)) T = true ->
  guarded member T = flat_map member T.
Proof.
  intros H. unfold guarded.
  rewrite is_never_Extract. now rewrite H.
Qed.

Lemma guarded_rejects (T : Shape) (a : Atom) :
  In a T -> rejected a = true -> guarded member T = never.
Proof.
  intros Hin Hbad. unfold guarded.
  rewrite is_never_Extract.
  destruct (forallb _ T) eqn:E; [|reflexivity].
  rewrite forallb_forall in E. specialize (E a Hin).
  rewrite Hbad in E. discriminate.
Qed.

(** The single traversal [guarded_defined] is the source's
    [Jsonify<Exclude<T[Key], undefined>>]. *)
Lemma guarded_defined_Exclude (T : Shape) :
  guarded_defined member T = guarded member (Exclude T undefined).
Proof.
  unfold guarded_defined, guarded. rewrite is_never_Extract.
  unfold Exclude.
  assert (Hb : forallb (fun a => undefined a || negb (rejected a)) T
               = forallb (fun a => negb (rejected a))
                   (filter (fun a => negb (undefined a)) T)).
  { induction T as [|a T IH]; simpl; [reflexivity|].
    destruct (undefined a); simpl; rewrite IH; reflexivity. }
  rewrite Hb. destruct (forallb _ (filter _ T)); [|reflexivity].
  clear Hb. induction T as [|a T IH]; simpl; [reflexivity|].
  destruct (undefined a); simpl; rewrite IH; reflexivity.
Qed.
End OuterTest.

(** Unfolding [Jsonify] at a union with one member. *)
Lemma Jsonify_single (a : Atom) :
  rejected a = false -> Jsonify [a] = Jsonify_member a.
Proof.
  intros H. unfold Jsonify. rewrite guarded_accepts.
  - simpl. apply app_nil_r.
  - simpl. now rewrite H.
Qed.

Lemma Jsonify_ARecord (T : list Property) :
  Jsonify [ARecord T] = [ARecord (Jsonify_record T)].
Proof. now rewrite Jsonify_single. Qed.

Lemma element_Jsonify (E : Shape) :
  element Jsonify_member E = Jsonify_element E.
Proof. reflexivity. Qed.

(** ** Indexed access *)

(** Reading an optional property and removing [undefined] again. *)
Lemma Exclude_read (p : Property) :
  Exclude (read p) undefined = Exclude (pshape p) undefined.
Proof.
  unfold read, Exclude. destruct (poptional p); [|reflexivity].
  rewrite filter_app. simpl. apply app_nil_r.
Qed.

Lemma undefined_extends_read_optional (p : Property) :
  poptional p = true -> undefined_extends (read p) = true.
Proof.
  intros H. unfold read, undefined_extends. rewrite H.
  rewrite existsb_app. simpl. apply orb_true_r.
Qed.

Lemma read_required (p : Property) :
  undefined_extends (read p) = false ->
  poptional p = false /\ read p = pshape p.
Proof.
  intros H. destruct (poptional p) eqn:Ho.
  - rewrite (undefined_extends_read_optional p Ho) in H. discriminate.
  - unfold read. now rewrite Ho.
Qed.

Section Index.
Variable T : list Property.
Hypothesis distinct_keys : NoDup (keys T).

(** In a record with distinct keys, [Type[Key]] is what reading the
    property under that key gives. *)
Lemma index_read (p : Property) : In p T -> index T (pkey p) = read p.
Proof.
  revert distinct_keys. induction T as [|p0 r IH]; intros Hd Hp;
    [contradiction|].
  simpl in Hd. inversion Hd as [|? ? Hp0 Hr]; subst. simpl.
  destruct Hp as [->|Hp].
  - now rewrite (proj2 (Key_eqb_eq (pkey p) (pkey p)) eq_refl).
  - destruct (Key_eqb (pkey p0) (pkey p)) eqn:E; [|now apply IH].
    apply Key_eqb_eq in E. exfalso. apply Hp0. rewrite E.
    now apply in_map.
Qed.

Lemma same_key (p q : Property) :
  In p T -> In q T -> pkey p = pkey q -> p = q.
Proof.
  revert distinct_keys.
  induction T as [|r l IH]; intros Hd Hp Hq E; [contradiction|].
  simpl in Hd. inversion Hd as [|? ? Hr Hl]; subst.
  destruct Hp as [->|Hp], Hq as [->|Hq].
  - reflexivity.
  - exfalso. apply Hr. rewrite E. now apply in_map.
  - exfalso. apply Hr. rewrite <- E. now apply in_map.
  - now apply IH.
Qed.
End Index.

(** ** The key filters *)

Section KeyFilters.
Variables (T : list Property) (k : Key).

Lemma BaseKeyFilter_key (k' : Key) : BaseKeyFilter T k = Some k' -> k' = k.
Proof.
  unfold BaseKeyFilter. destruct (symbol_key k); [discriminate|].
  destruct (extends _ symbol); [discriminate|].
  destruct (function_extends _); [discriminate|]. congruence.
Qed.

Lemma RequiredKeyFilter_key (k' : Key) :
  RequiredKeyFilter T k = Some k' -> k' = k.
Proof.
  unfold RequiredKeyFilter. destruct (undefined_extends _); [discriminate|].
  apply BaseKeyFilter_key.
Qed.

Lemma OptionalKeyFilter_key (k' : Key) :
  OptionalKeyFilter T k = Some k' -> k' = k.
Proof.
  unfold OptionalKeyFilter. destruct (undefined_extends _); [|discriminate].
  destruct (extends _ undefined); [discriminate|].
  apply BaseKeyFilter_key.
Qed.

(** At most one of the two filters keeps the key. *)
Lemma filters_exclusive :
  RequiredKeyFilter T k = None \/ OptionalKeyFilter T k = None.
Proof.
  unfold RequiredKeyFilter, OptionalKeyFilter.
  destruct (undefined_extends _); [left | right]; reflexivity.
Qed.

(** A key is kept by one of the filters exactly when it passes
    [BaseKeyFilter] and its value shape is not just [undefined]. *)
Lemma kept_key_base :
  RequiredKeyFilter T k = Some k \/ OptionalKeyFilter T k = Some k <->
  BaseKeyFilter T k = Some k /\ extends (index T k) undefined = false.
Proof.
  unfold RequiredKeyFilter, OptionalKeyFilter.
  destruct (undefined_extends (index T k)) eqn:Eu; split.
  - intros [H|H]; [discriminate|].
    destruct (extends _ undefined); [discriminate|]. now split.
  - intros [H ->]. now right.
  - intros [H|H]; [|discriminate]. split; [exact H|].
    unfold BaseKeyFilter in H. destruct (symbol_key k); [discriminate|].
    destruct (index T k) as [|a S]; [discriminate H|].
    simpl in Eu |- *. apply orb_false_iff in Eu as [Ea _].
    now rewrite Ea.
  - intros [H _]. now left.
Qed.

Lemma BaseKeyFilter_function :
  function_extends (index T k) = true -> BaseKeyFilter T k = None.
Proof.
  intros H. unfold BaseKeyFilter. rewrite H.
  destruct (symbol_key k); [reflexivity|].
  now destruct (extends _ symbol).
Qed.
End KeyFilters.

Lemma function_extends_member (S : Shape) :
  In AFun S -> function_extends S = true.
Proof.
  intros H. apply existsb_exists. exists AFun. now split.
Qed.

Lemma forallb_impl (A : Type) (f g : A -> bool) (l : list A) :
  (forall x, f x = true -> g x = true) ->
  forallb f l = true -> forallb g l = true.
Proof.
  intros H. rewrite !forallb_forall. intros Hf x Hx. apply H, Hf, Hx.
Qed.

(** Every target of the function type is a candidate target. *)
Lemma function_target_is_candidate (a : Atom) :
  function_assignable_to a = true -> function_target_candidate a = true.
Proof.
  unfold function_assignable_to.
  destruct a; try discriminate; try reflexivity.
  destruct props as [|p ps]; [reflexivity|].
  intros H. cbn [assignable_from] in H.
  apply andb_true_iff in H as [_ H].
  unfold function_target_candidate. revert H. apply forallb_impl.
  intros q. destruct (poptional q); [reflexivity|]. simpl.
  destruct (pkey q) as [name|name]; [|discriminate].
  unfold member.
  now destruct (first_some (Function_member name) (Object_member name)).
Qed.

Lemma no_candidate_no_target (S : Shape) :
  existsb function_target_candidate S = false -> function_extends S = false.
Proof.
  intros H. unfold function_extends.
  destruct (existsb function_assignable_to S) eqn:E; [|reflexivity].
  apply existsb_exists in E as (a & Ha & Hf).
  assert (X : existsb function_target_candidate S = true).
  { apply existsb_exists. exists a. split; [exact Ha|].
    now apply function_target_is_candidate. }
  congruence.
Qed.

Lemma exactly_member (S : Shape) (U : Atom -> bool) :
  exactly S U = true -> exists a, In a S /\ U a = true /\ extends S U = true.
Proof.
  unfold exactly. destruct S as [|a T]; [discriminate|]. simpl.
  intros H. exists a. apply andb_true_iff in H as [Ha HT].
  repeat split; [now left | exact Ha | now rewrite Ha, HT].
Qed.

(** ** The keys of the two halves *)

Section RecordKeys.
Variable T : list Property.

Let required := required_half Jsonify_member T.
Let optional := optional_half Jsonify_member T.

Lemma key_in_required_half (key : Key) :
  In key (keys required) <->
  In key (keys T) /\ RequiredKeyFilter T key = Some key.
Proof.
  unfold keys, required, required_half. rewrite !in_map_iff. split.
  - intros (q & <- & Hq). apply in_flat_map in Hq as (p & Hp & Hq).
    destruct (RequiredKeyFilter T (pkey p)) as [k|] eqn:E; [|contradiction].
    pose proof (RequiredKeyFilter_key _ _ _ E) as ->.
    destruct Hq as [<-|[]]. unfold pkey at 1 3. simpl. fold (pkey p).
    split; [|exact E]. exists p. now split.
  - intros ((p & <- & Hp) & E).
    exists (pkey p, poptional p, guarded Jsonify_member (pshape p)).
    split; [reflexivity|]. apply in_flat_map. exists p.
    split; [exact Hp|]. rewrite E. now left.
Qed.

Lemma key_in_optional_half (key : Key) :
  In key (keys optional) <->
  In key (keys T) /\ OptionalKeyFilter T key = Some key.
Proof.
  unfold keys, optional, optional_half. rewrite !in_map_iff. split.
  - intros (q & <- & Hq). apply in_flat_map in Hq as (p & Hp & Hq).
    destruct (OptionalKeyFilter T (pkey p)) as [k|] eqn:E; [|contradiction].
    pose proof (OptionalKeyFilter_key _ _ _ E) as ->.
    destruct Hq as [<-|[]]. unfold pkey at 1 3. simpl. fold (pkey p).
    split; [|exact E]. exists p. now split.
  - intros ((p & <- & Hp) & E).
    exists (pkey p, true, guarded_defined Jsonify_member (pshape p)).
    split; [reflexivity|]. apply in_flat_map. exists p.
    split; [exact Hp|]. rewrite E. now left.
Qed.

Lemma halves_disjoint (key : Key) :
  In key (keys required) -> ~ In key (keys optional).
Proof.
  rewrite key_in_required_half, key_in_optional_half.
  intros [_ Hr] [_ Ho].
  destruct (filters_exclusive T key); congruence.
Qed.

Lemma Merge_disjoint (A B : list Property) :
  (forall key, In key (keys A) -> ~ In key (keys B)) ->
  Merge A B = A ++ B.
Proof.
  intros H. unfold Merge. f_equal.
  apply forallb_filter_id. apply forallb_forall. intros q Hq.
  apply negb_true_iff. destruct (existsb _ _) eqn:E; [|reflexivity].
  apply existsb_exists in E as (key & Hkey & Heq).
  apply Key_eqb_eq in Heq. subst key.
  exfalso. apply (H _ Hkey). now apply in_map.
Qed.

Lemma Jsonify_record_append : Jsonify_record T = required ++ optional.
Proof. apply Merge_disjoint, halves_disjoint. Qed.

(** The keys of the projected record are the keys kept by a filter. *)
Lemma kept_key (key : Key) :
  In key (keys (Jsonify_record T)) <->
  In key (keys T) /\
  (RequiredKeyFilter T key = Some key \/ OptionalKeyFilter T key = Some key).
Proof.
  rewrite Jsonify_record_append. unfold keys at 1.
  rewrite map_app, in_app_iff.
  fold (keys required) (keys optional).
  rewrite key_in_required_half, key_in_optional_half. tauto.
Qed.

Lemma kept_key_iff (key : Key) :
  In key (keys (Jsonify_record T)) <->
  In key (keys T) /\ BaseKeyFilter T key = Some key /\
  extends (index T key) undefined = false.
Proof. rewrite kept_key, kept_key_base. tauto. Qed.

Hypothesis distinct_keys : NoDup (keys T).

(** With distinct keys the two halves are the mapped types of the source:
    over [keyof T], filtered by [as], with values [Jsonify<T[Key]>] and
    [Jsonify<Exclude<T[Key], undefined>>]. *)
Lemma required_half_source :
  required =
  flat_map (fun key =>
              match RequiredKeyFilter T key with
              | Some k => [(k, false, Jsonify (index T key))]
              | None => []
              end) (keys T).
Proof.
  unfold required, required_half, keys. apply flat_map_through.
  intros p Hp.
  destruct (RequiredKeyFilter T (pkey p)) as [k|] eqn:E; [|reflexivity].
  unfold RequiredKeyFilter in E.
  rewrite (index_read T distinct_keys p Hp) in E |- *.
  destruct (undefined_extends (read p)) eqn:Eu; [discriminate|].
  destruct (read_required p Eu) as [-> ->]. reflexivity.
Qed.

Lemma optional_half_source :
  optional =
  flat_map (fun key =>
              match OptionalKeyFilter T key with
              | Some k => [(k, true, Jsonify (Exclude (index T key) undefined))]
              | None => []
              end) (keys T).
Proof.
  unfold optional, optional_half, keys. apply flat_map_through.
  intros p Hp.
  rewrite (index_read T distinct_keys p Hp).
  now rewrite guarded_defined_Exclude, Exclude_read.
Qed.

Lemma In_required_half (q : Property) :
  In q required <->
  exists key, In key (keys T) /\ RequiredKeyFilter T key = Some key /\
              q = (key, false, Jsonify (index T key)).
Proof.
  rewrite required_half_source, in_flat_map.
  split; intros (key & Hk & H); exists key; (split; [exact Hk|]).
  - destruct (RequiredKeyFilter T key) as [k|] eqn:E; [|contradiction].
    pose proof (RequiredKeyFilter_key _ _ _ E) as ->.
    destruct H as [<-|[]]. now split.
  - destruct H as [E ->]. rewrite E. now left.
Qed.

Lemma In_optional_half (q : Property) :
  In q optional <->
  exists key, In key (keys T) /\ OptionalKeyFilter T key = Some key /\
              q = (key, true, Jsonify (Exclude (index T key) undefined)).
Proof.
  rewrite optional_half_source, in_flat_map.
  split; intros (key & Hk & H); exists key; (split; [exact Hk|]).
  - destruct (OptionalKeyFilter T key) as [k|] eqn:E; [|contradiction].
    pose proof (OptionalKeyFilter_key _ _ _ E) as ->.
    destruct H as [<-|[]]. now split.
  - destruct H as [E ->]. rewrite E. now left.
Qed.
End RecordKeys.

(** ** The projection is a JSON value *)

Section JsonValueOutput.

Let good (a : Atom) : Prop := JsonValue (Jsonify_member a) = true.

Lemma JsonValue_guarded (T : Shape) :
  Forall good T -> JsonValue (guarded Jsonify_member T) = true.
Proof.
  intros H. unfold guarded. destruct (is_never _); [|reflexivity].
  apply forallb_flat_map. intros a Ha.
  rewrite Forall_forall in H. now apply H.
Qed.

Lemma JsonValue_guarded_defined (T : Shape) :
  Forall good T -> JsonValue (guarded_defined Jsonify_member T) = true.
Proof.
  intros H. unfold guarded_defined. destruct (forallb _ T); [|reflexivity].
  apply forallb_flat_map. intros a Ha.
  destruct (undefined a); [reflexivity|].
  rewrite Forall_forall in H. now apply H.
Qed.

Lemma JsonValue_element (E : Shape) :
  Forall good E -> JsonValue (element Jsonify_member E) = true.
Proof.
  intros H. unfold element. destruct (extends E NotJsonable); [reflexivity|].
  now apply JsonValue_guarded.
Qed.

(** What [JsonValue_member] asks of one property of a record. *)
Let good_property (p : Property) : bool :=
  symbol_key (pkey p) || forallb JsonValue_member (pshape p).

Lemma JsonValue_record (T : list Property) :
  Forall (fun p : Property => Forall good (pshape p)) T ->
  forallb good_property (record_with Jsonify_member T) = true.
Proof.
  intros H. rewrite Forall_forall in H.
  unfold record_with, Merge. rewrite forallb_app.
  apply andb_true_iff; split; [|apply forallb_filter];
    apply forallb_flat_map; intros p Hp; specialize (H p Hp).
  - destruct (RequiredKeyFilter _ _) as [k|]; [|reflexivity].
    simpl. rewrite andb_true_r. unfold good_property, pkey, pshape. simpl.
    apply orb_true_iff. right. now apply JsonValue_guarded.
  - destruct (OptionalKeyFilter _ _) as [k|]; [|reflexivity].
    simpl. rewrite andb_true_r. unfold good_property, pkey, pshape. simpl.
    apply orb_true_iff. right. now apply JsonValue_guarded_defined.
Qed.

Lemma JsonValue_Jsonify_member (a : Atom) : good a.
Proof.
  induction a using Atom_ind; unfold good in *; try reflexivity.
  - (* toJSON *)
    simpl. destruct (JsonValue J) eqn:EJ; [exact EJ|].
    now apply JsonValue_guarded.
  - (* array *)
    simpl. rewrite andb_true_r. fold (JsonValue (element Jsonify_member e)).
    now apply JsonValue_element.
  - (* tuple *)
    simpl. rewrite andb_true_r.
    rewrite forallb_forall. intros E HE. apply in_map_iff in HE.
    destruct HE as (E0 & <- & HE0).
    rewrite Forall_forall in H. apply JsonValue_element. now apply H.
  - (* record *)
    simpl. rewrite andb_true_r. now apply JsonValue_record.
Qed.

End JsonValueOutput.

Lemma JsonValue_Jsonify (S : Shape) : JsonValue (Jsonify S) = true.
Proof.
  apply JsonValue_guarded. rewrite Forall_forall.
  intros a _. apply JsonValue_Jsonify_member.
Qed.

(** ** The projection of a shape without conversions is a listed shape *)

Section ListedOutput.

Let good (a : Atom) : Prop :=
  conversion_free_member a = true -> listed (Jsonify_member a) = true.

Lemma listed_members (T : Shape) (a : Atom) :
  Forall good T -> conversion_free T = true -> In a T ->
  listed (Jsonify_member a) = true.
Proof.
  intros H Hc Ha. rewrite Forall_forall in H.
  unfold conversion_free in Hc. rewrite forallb_forall in Hc.
  apply H; auto.
Qed.

Lemma listed_guarded (T : Shape) :
  Forall good T -> conversion_free T = true ->
  listed (guarded Jsonify_member T) = true.
Proof.
  intros H Hc. unfold guarded. destruct (is_never _); [|reflexivity].
  apply forallb_flat_map. intros a Ha. now apply (listed_members T).
Qed.

Lemma listed_guarded_defined (T : Shape) :
  Forall good T -> conversion_free T = true ->
  listed (guarded_defined Jsonify_member T) = true.
Proof.
  intros H Hc. unfold guarded_defined. destruct (forallb _ T); [|reflexivity].
  apply forallb_flat_map. intros a Ha.
  destruct (undefined a); [reflexivity|]. now apply (listed_members T).
Qed.

Lemma listed_element (E : Shape) :
  Forall good E -> conversion_free E = true ->
  listed (element Jsonify_member E) = true.
Proof.
  intros H Hc. unfold element. destruct (extends E NotJsonable); [reflexivity|].
  now apply listed_guarded.
Qed.

Lemma BaseKeyFilter_string (T : list Property) (k k' : Key) :
  BaseKeyFilter T k = Some k' -> symbol_key k' = false.
Proof.
  intros H. pose proof (BaseKeyFilter_key T k k' H) as ->.
  unfold BaseKeyFilter in H. now destruct (symbol_key k).
Qed.

Lemma RequiredKeyFilter_string (T : list Property) (k k' : Key) :
  RequiredKeyFilter T k = Some k' -> symbol_key k' = false.
Proof.
  unfold RequiredKeyFilter. destruct (undefined_extends _); [discriminate|].
  apply BaseKeyFilter_string.
Qed.

Lemma OptionalKeyFilter_string (T : list Property) (k k' : Key) :
  OptionalKeyFilter T k = Some k' -> symbol_key k' = false.
Proof.
  unfold OptionalKeyFilter. destruct (undefined_extends _); [|discriminate].
  destruct (extends _ undefined); [discriminate|].
  apply BaseKeyFilter_string.
Qed.

(** What [listed_member] asks of one property of a record. *)
Let listed_property (p : Property) : bool :=
  negb (symbol_key (pkey p)) && forallb listed_member (pshape p).

Lemma listed_record (T : list Property) :
  Forall (fun p : Property => Forall good (pshape p)) T ->
  forallb (fun p : Property => conversion_free (pshape p)) T = true ->
  forallb listed_property (record_with Jsonify_member T) = true.
Proof.
  intros H Hc. rewrite Forall_forall in H. rewrite forallb_forall in Hc.
  unfold record_with, Merge. rewrite forallb_app.
  apply andb_true_iff; split; [|apply forallb_filter];
    apply forallb_flat_map; intros p Hp;
    specialize (H p Hp); specialize (Hc p Hp).
  - destruct (RequiredKeyFilter _ _) as [k|] eqn:E; [|reflexivity].
    simpl. rewrite andb_true_r. unfold listed_property, pkey, pshape. simpl.
    rewrite (RequiredKeyFilter_string _ _ _ E). simpl.
    now apply listed_guarded.
  - destruct (OptionalKeyFilter _ _) as [k|] eqn:E; [|reflexivity].
    simpl. rewrite andb_true_r. unfold listed_property, pkey, pshape. simpl.
    rewrite (OptionalKeyFilter_string _ _ _ E). simpl.
    now apply listed_guarded_defined.
Qed.

Lemma listed_Jsonify_member (a : Atom) : good a.
Proof.
  induction a using Atom_ind; unfold good in *; intros Hc;
    try reflexivity; try discriminate Hc.
  - (* array *)
    simpl. rewrite andb_true_r. fold (listed (element Jsonify_member e)).
    now apply listed_element.
  - (* tuple *)
    simpl. rewrite andb_true_r. simpl in Hc.
    rewrite forallb_forall in Hc |- *. intros E HE. apply in_map_iff in HE.
    destruct HE as (E0 & <- & HE0).
    rewrite Forall_forall in H. apply listed_element; [now apply H|].
    now apply Hc.
  - (* record *)
    simpl. rewrite andb_true_r. now apply listed_record.
Qed.

End ListedOutput.




(** ** Rejected unions *)

(** C3.  A union with a member that is a function, symbol, undefined or
    bigint shape projects to the empty shape, whatever its other members. *)
Theorem Jsonify_rejects_union (S : Shape) (a : Atom) :
  In a S -> In a [AFun; ASymbol; AUndefined; ABigint] -> Jsonify S = never.
Proof.
  intros Hin Hbad. apply (guarded_rejects Jsonify_member S a Hin).
  simpl in Hbad. decompose [or] Hbad; subst; try reflexivity; contradiction.
Qed.

Lemma Jsonify_rejects_union_witness :
  In AFun (Union [[AString]; [AFun]]) /\
  In AFun [AFun; ASymbol; AUndefined; ABigint] /\
  Jsonify (Union [[AString]; [AFun]]) = never.
Proof.
  assert (Hmember : In AFun (Union [[AString]; [AFun]]))
    by (simpl; right; left; reflexivity).
  assert (Hrejected : In AFun [AFun; ASymbol; AUndefined; ABigint])
    by (simpl; left; reflexivity).
  split; [exact Hmember | split; [exact Hrejected|]].
  exact (Jsonify_rejects_union (Union [[AString]; [AFun]]) AFun
           Hmember Hrejected).
Defined.

Example Jsonify_bare_rejected :
  Jsonify [AFun] = never /\ Jsonify [ASymbol] = never /\
  Jsonify [AUndefined] = never /\ Jsonify [ABigint] = never.
Proof. repeat split. Qed.

(** ** Primitives, literals and the infinities *)

(** C8.  Both infinities project to null; string, number, boolean, null and
    every literal of them project to themselves. *)
Theorem Jsonify_primitives :
  Jsonify [APosInf] = [ANull] /\ Jsonify [ANegInf] = [ANull] /\
  Jsonify [AString] = [AString] /\ Jsonify [ANumber] = [ANumber] /\
  Jsonify [ABoolean] = [ABoolean] /\ Jsonify [ANull] = [ANull] /\
  (forall s, Jsonify [AStrLit s] = [AStrLit s]) /\
  (forall n, Jsonify [ANumLit n] = [ANumLit n]) /\
  (forall b, Jsonify [ABoolLit b] = [ABoolLit b]).
Proof. repeat split. Qed.

(** ** Custom conversion and built-in objects *)

(** C7.  A shape with a [toJSON] method returning [J] projects to [J] when
    [J] is assignable to the JSON-value shape, and to the projection of [J]
    otherwise. *)
Theorem Jsonify_toJSON (J : Shape) :
  Jsonify [AToJSON J] = if JsonValue J then J else Jsonify J.
Proof. rewrite Jsonify_single by reflexivity. reflexivity. Qed.

Example toJSON_string_adopted : Jsonify [AToJSON [AString]] = [AString].
Proof. reflexivity. Qed.

Example toJSON_nested_projected :
  Jsonify [AToJSON [AToJSON [AString]]] = [AString].
Proof. reflexivity. Qed.

Example Jsonify_built_in_objects :
  Jsonify [ABoxedNumber] = [ANumber] /\ Jsonify [ABoxedString] = [AString] /\
  Jsonify [ABoxedBoolean] = [ABoolean] /\
  Jsonify [AMap] = [ARecord []] /\ Jsonify [ASet] = [ARecord []] /\
  Jsonify [ATypedArray] = [AStringNumberRecord].
Proof. repeat split. Qed.

(** ** Arrays and tuples *)

(** C4 (as amended).  An array or tuple projects element by element, its
    length kept: an element shape all of whose members are function, symbol
    or undefined shapes becomes the null literal, any other element shape
    [E] becomes [Jsonify E]; a bigint element is not nulled, it projects to
    the empty shape. *)
Theorem Jsonify_array_elementwise :
  (forall e, Jsonify [AArray e] =
             [AArray (if extends e NotJsonable then [ANull] else Jsonify e)]) /\
  (forall es, Jsonify [ATuple es] =
              [ATuple (map (fun E => if extends E NotJsonable then [ANull]
                                     else Jsonify E) es)]) /\
  (forall es, exists qs,
      Jsonify [ATuple es] = [ATuple qs] /\ List.length qs = List.length es) /\
  Jsonify [ATuple [[ABigint]]] = [ATuple [never]] /\
  Jsonify [ATuple [[AString]; [AFun]; [ANumber]]] =
  [ATuple [[AString]; [ANull]; [ANumber]]].
Proof.
  repeat split.
  intros es. eexists. split.
  - rewrite Jsonify_single by reflexivity. reflexivity.
  - apply length_map.
Qed.

(** The element rule as the specification words it does not hold: a bigint
    element is not replaced by the null literal. *)
Lemma bigint_element_not_null :
  Jsonify [ATuple [[ABigint]]] <>
  [ATuple (map element_as_specified [[ABigint]])].
Proof. discriminate. Qed.

Example Jsonify_array_of_functions :
  Jsonify [AArray [AFun; AUndefined]] = [AArray [ANull]].
Proof. reflexivity. Qed.

(** ** Records *)

Lemma sample_record_distinct : NoDup (keys sample_record).
Proof.
  repeat constructor; simpl; intuition discriminate.
Defined.

(** C10.  No key is kept by both filters: the required filter keeps a key
    only when [undefined] is not assignable to its value shape, the optional
    filter only when it is.  The two halves of the projected record
    therefore share no key, and merging them is appending them. *)
Theorem required_optional_exclusive (T : list Property) (key : Key) :
  (RequiredKeyFilter T key = None \/ OptionalKeyFilter T key = None) /\
  (RequiredKeyFilter T key = None \/
   undefined_extends (index T key) = false) /\
  (OptionalKeyFilter T key = None \/
   undefined_extends (index T key) = true) /\
  ~ (In key (keys (required_half Jsonify_member T)) /\
     In key (keys (optional_half Jsonify_member T))) /\
  Jsonify_record T =
  required_half Jsonify_member T ++ optional_half Jsonify_member T.
Proof.
  split; [apply filters_exclusive|].
  split; [|split; [|split]].
  - unfold RequiredKeyFilter. destruct (undefined_extends _); auto.
  - unfold OptionalKeyFilter. destruct (undefined_extends _); auto.
  - intros [Hr Ho]. now apply (halves_disjoint T key).
  - apply Jsonify_record_append.
Qed.

Lemma required_optional_exclusive_witness :
  RequiredKeyFilter sample_record (KStr "b") = None /\
  OptionalKeyFilter sample_record (KStr "b") = Some (KStr "b") /\
  Jsonify_record sample_record =
  [(KStr "a", false, [AString])] ++ [(KStr "b", true, [ANumber])].
Proof.
  split; [reflexivity | split; [reflexivity|]].
  apply (required_optional_exclusive sample_record (KStr "b")).
Defined.

(** C6.  In a record with distinct keys, a key that passes [BaseKeyFilter]
    and whose value shape includes [undefined] without being only
    [undefined] is in the projection as an optional key holding the
    projection of the value shape without [undefined]; one whose value
    shape does not include [undefined] is there as a required key holding
    the projection of the value shape.  The projection has no other
    property under that key. *)
Theorem undefined_makes_optional (T : list Property) (key : Key)
        (q : Property) :
  NoDup (keys T) -> In key (keys T) ->
  BaseKeyFilter T key = Some key ->
  (undefined_extends (index T key) = true ->
   extends (index T key) undefined = false ->
   (In q (Jsonify_record T) /\ pkey q = key <->
    q = (key, true, Jsonify (Exclude (index T key) undefined)))) /\
  (undefined_extends (index T key) = false ->
   (In q (Jsonify_record T) /\ pkey q = key <->
    q = (key, false, Jsonify (index T key)))).
Proof.
  intros Hd Hk Hb. rewrite (Jsonify_record_append T).
  split; [intros Hu Hn | intros Hu]; rewrite in_app_iff;
    rewrite (In_required_half T Hd), (In_optional_half T Hd); split.
  - intros [[(k & _ & E & ->)|(k & _ & E & ->)] <-];
      unfold pkey in *; simpl in *; [|reflexivity].
    unfold RequiredKeyFilter in E. now rewrite Hu in E.
  - intros ->. split; [|reflexivity]. right. exists key.
    repeat split; [exact Hk|].
    unfold OptionalKeyFilter. now rewrite Hu, Hn.
  - intros [[(k & _ & E & ->)|(k & _ & E & ->)] <-];
      unfold pkey in *; simpl in *; [reflexivity|].
    unfold OptionalKeyFilter in E. now rewrite Hu in E.
  - intros ->. split; [|reflexivity]. left. exists key.
    repeat split; [exact Hk|].
    unfold RequiredKeyFilter. now rewrite Hu.
Qed.

Lemma undefined_makes_optional_witness :
  NoDup (keys sample_record) /\
  In (KStr "b") (keys sample_record) /\
  BaseKeyFilter sample_record (KStr "b") = Some (KStr "b") /\
  undefined_extends (index sample_record (KStr "b")) = true /\
  extends (index sample_record (KStr "b")) undefined = false /\
  In (KStr "b", true, [ANumber]) (Jsonify_record sample_record).
Proof.
  assert (Hin : In (KStr "b") (keys sample_record))
    by (simpl; right; left; reflexivity).
  split; [exact sample_record_distinct | split; [exact Hin|]].
  do 3 (split; [reflexivity|]).
  destruct (undefined_makes_optional sample_record (KStr "b")
              (KStr "b", true, [ANumber]) sample_record_distinct Hin eq_refl)
    as [H _].
  apply (H eq_refl eq_refl). reflexivity.
Defined.

Example Jsonify_sample_record :
  Jsonify [ARecord sample_record] =
  [ARecord [(KStr "a", false, [AString]); (KStr "b", true, [ANumber])]].
Proof. reflexivity. Qed.

(** C9.  A key whose value shape includes a function shape, or any shape
    the function type is assignable to, is dropped by [BaseKeyFilter] and
    is absent from the projected record, whatever the other members of the
    value shape. *)
Theorem function_union_key_excluded (T : list Property) (key : Key) :
  In AFun (index T key) \/ function_extends (index T key) = true ->
  BaseKeyFilter T key = None /\
  ~ In key (keys (Jsonify_record T)).
Proof.
  intros Hf.
  assert (Hb : BaseKeyFilter T key = None).
  { apply BaseKeyFilter_function.
    destruct Hf as [Hf|Hf]; [now apply function_extends_member | exact Hf]. }
  split; [exact Hb|]. rewrite kept_key_iff. intros (_ & H & _). congruence.
Qed.

Lemma function_union_key_excluded_witness :
  In AFun (index string_or_function_record (KStr "a")) /\
  BaseKeyFilter string_or_function_record (KStr "a") = None /\
  ~ In (KStr "a") (keys (Jsonify_record string_or_function_record)).
Proof.
  assert (Hfun : In AFun (index string_or_function_record (KStr "a")))
    by (simpl; right; left; reflexivity).
  split; [exact Hfun|].
  exact (function_union_key_excluded string_or_function_record (KStr "a")
           (or_introl Hfun)).
Defined.

Example Jsonify_string_or_function_record :
  Jsonify [ARecord string_or_function_record] = [ARecord []].
Proof. reflexivity. Qed.

(** C5 (as amended).  A key is absent from the projected record when it is
    a symbol key, or its value shape is a symbol shape, or its value shape
    is a function shape; the same holds when its value shape is just
    [undefined] or a union that includes a function shape, so the three
    conditions are sufficient, not necessary. *)
Theorem excluded_keys_sufficient (T : list Property) (key : Key) :
  symbol_key key = true \/
  exactly (index T key) symbol = true \/
  exactly (index T key) function = true \/
  exactly (index T key) undefined = true \/
  In AFun (index T key) ->
  ~ In key (keys (Jsonify_record T)).
Proof.
  intros H. rewrite kept_key_iff. intros (_ & Hb & Hu).
  unfold BaseKeyFilter in Hb.
  destruct (symbol_key key) eqn:Ek; [discriminate|].
  destruct (extends (index T key) symbol) eqn:Es; [discriminate|].
  destruct (function_extends (index T key)) eqn:Ef; [discriminate|].
  destruct H as [H|[H|[H|[H|H]]]].
  - discriminate.
  - apply exactly_member in H as (_ & _ & _ & H). congruence.
  - apply exactly_member in H as (a & Ha & Hfa & _).
    destruct a; try discriminate.
    apply function_extends_member in Ha. congruence.
  - apply exactly_member in H as (_ & _ & _ & H). congruence.
  - apply function_extends_member in H. congruence.
Qed.

Lemma excluded_keys_sufficient_witness :
  exactly (index function_record (KStr "a")) function = true /\
  ~ In (KStr "a") (keys (Jsonify_record function_record)).
Proof.
  split; [reflexivity|].
  apply (excluded_keys_sufficient function_record (KStr "a")).
  right. right. left. reflexivity.
Defined.

Example Jsonify_function_record :
  Jsonify [ARecord function_record] = [ARecord []].
Proof. reflexivity. Qed.

(** The three conditions are not necessary: the key of [{a: undefined}] is
    absent from the projection, and it is no symbol key, its value shape is
    neither a symbol nor a function shape. *)
Lemma undefined_key_excluded :
  ~ (~ In (KStr "a") (keys (Jsonify_record undefined_record)) <->
     (symbol_key (KStr "a") = true \/
      exactly (index undefined_record (KStr "a")) symbol = true \/
      exactly (index undefined_record (KStr "a")) function = true)).
Proof.
  intros [H _].
  assert (Hx : ~ In (KStr "a") (keys (Jsonify_record undefined_record)))
    by (simpl; tauto).
  destruct (H Hx) as [E|[E|E]]; discriminate E.
Qed.

(** ** Fixed points of the projection *)

Section Settled.

Lemma settled_member_accepted (a : Atom) :
  settled_member a = true ->
  rejected a = false /\ undefined a = false /\ symbol a = false /\
  NotJsonable a = false.
Proof. destruct a; simpl; intros H; try discriminate; now repeat split. Qed.

Lemma settled_In (S : Shape) (a : Atom) :
  Forall fixed S -> settled S = true -> In a S ->
  settled_member a = true /\ Jsonify_member a = [a].
Proof.
  intros Hf Hs Ha. unfold settled in Hs.
  rewrite forallb_forall in Hs. rewrite Forall_forall in Hf.
  split; [now apply Hs | apply Hf; auto].
Qed.

Lemma guarded_settled (S : Shape) :
  Forall fixed S -> settled S = true -> guarded Jsonify_member S = S.
Proof.
  intros Hf Hs. rewrite guarded_accepts.
  - apply flat_map_singleton. intros a Ha. now apply (settled_In S).
  - apply forallb_forall. intros a Ha.
    apply (settled_In S a Hf Hs) in Ha as [Ha _].
    apply settled_member_accepted in Ha as [-> _]. reflexivity.
Qed.

Lemma guarded_defined_settled (S : Shape) :
  Forall fixed S -> settled S = true ->
  guarded_defined Jsonify_member S = S.
Proof.
  intros Hf Hs. unfold guarded_defined.
  assert (E : forallb (fun a => undefined a || negb (rejected a)) S = true).
  { apply forallb_forall. intros a Ha.
    apply (settled_In S a Hf Hs) in Ha as [Ha _].
    apply settled_member_accepted in Ha as [-> _]. apply orb_true_r. }
  rewrite E. apply flat_map_singleton. intros a Ha.
  apply (settled_In S a Hf Hs) in Ha as [Ha ->].
  apply settled_member_accepted in Ha as (_ & -> & _). reflexivity.
Qed.

(** An inhabited settled shape has a first member, which is none of
    function, symbol, undefined. *)
Lemma first_member (S : Shape) :
  settled S = true -> inhabited S = true ->
  exists a T, S = a :: T /\
              undefined a = false /\ symbol a = false /\
              NotJsonable a = false.
Proof.
  destruct S as [|a T]; intros Hs Hi; [discriminate Hi|].
  exists a, T. split; [reflexivity|].
  simpl in Hs. apply andb_true_iff in Hs as [Ha _].
  now apply settled_member_accepted in Ha.
Qed.

Lemma element_settled (S : Shape) :
  Forall fixed S -> settled S = true -> inhabited S = true ->
  element Jsonify_member S = S.
Proof.
  intros Hf Hs Hi. unfold element.
  destruct (first_member S Hs Hi) as (a & T & E & _ & _ & Hn).
  replace (extends S NotJsonable) with false.
  - now apply guarded_settled.
  - rewrite E. simpl. now rewrite Hn.
Qed.

Lemma settled_not_undefined (S : Shape) :
  settled S = true -> inhabited S = true -> extends S undefined = false.
Proof.
  intros Hs Hi. destruct (first_member S Hs Hi) as (a & T & -> & Hu & _).
  simpl. now rewrite Hu.
Qed.

Lemma settled_not_symbol (S : Shape) :
  settled S = true -> inhabited S = true -> extends S symbol = false.
Proof.
  intros Hs Hi. destruct (first_member S Hs Hi) as (a & T & -> & _ & Hy & _).
  simpl. now rewrite Hy.
Qed.

Lemma settled_undefined_extends (S : Shape) :
  settled S = true -> undefined_extends S = false.
Proof.
  intros Hs. unfold undefined_extends.
  destruct (existsb undefined S) eqn:E; [|reflexivity].
  apply existsb_exists in E as (a & Ha & Hu).
  unfold settled in Hs. rewrite forallb_forall in Hs.
  apply Hs, settled_member_accepted in Ha as (_ & Hu' & _). congruence.
Qed.
End Settled.

Section SettledRecord.
Variable T : list Property.

Let req (p : Property) : bool := negb (poptional p).

Lemma required_first_split :
  required_first T = true -> filter req T ++ filter poptional T = T.
Proof.
  induction T as [|p r IH]; simpl; [reflexivity|].
  unfold req at 1. destruct (poptional p) eqn:Ho; simpl; intros H.
  - assert (E : filter req r = []).
    { clear IH. induction r as [|q r' IH']; [reflexivity|].
      simpl in H |- *. apply andb_true_iff in H as [Hq Hr].
      unfold req at 1. rewrite Hq. simpl. now apply IH'. }
    rewrite E. simpl. f_equal.
    apply forallb_filter_id. exact H.
  - f_equal. now apply IH.
Qed.

(** What the two filters answer for a settled property [p] of [T]. *)
Lemma settled_property_filters (p : Property) :
  index T (pkey p) = read p ->
  negb (symbol_key (pkey p)) && inhabited (pshape p) &&
  negb (existsb function_target_candidate (pshape p)) &&
  forallb settled_member (pshape p) = true ->
  RequiredKeyFilter T (pkey p) =
  (if poptional p then None else Some (pkey p)) /\
  OptionalKeyFilter T (pkey p) =
  (if poptional p then Some (pkey p) else None).
Proof.
  intros Hi Hs. split_andb.
  apply negb_true_iff in Hs, Hs1.
  apply no_candidate_no_target in Hs1.
  pose proof (settled_undefined_extends _ Hs0) as Hu.
  pose proof (settled_not_undefined _ Hs0 Hs2) as Hnu.
  pose proof (settled_not_symbol _ Hs0 Hs2) as Hns.
  unfold RequiredKeyFilter, OptionalKeyFilter, BaseKeyFilter.
  rewrite Hi, Hs. unfold read.
  destruct (poptional p).
  - unfold undefined_extends, function_extends, extends in *.
    rewrite !existsb_app, !forallb_app. simpl.
    rewrite orb_true_r, andb_false_r, orb_false_r, Hnu, Hs1. now split.
  - rewrite Hu, Hns, Hs1. now split.
Qed.

Hypothesis fixed_values :
  Forall (fun p : Property => Forall fixed (pshape p)) T.
Hypothesis settled_values :
  forallb (fun p : Property =>
             negb (symbol_key (pkey p)) &&
             inhabited (pshape p) &&
             negb (existsb function_target_candidate (pshape p)) &&
             forallb settled_member (pshape p)) T = true.
Hypothesis distinct_keys : NoDup (keys T).

Lemma settled_property (p : Property) :
  In p T ->
  Forall fixed (pshape p) /\ settled (pshape p) = true /\
  RequiredKeyFilter T (pkey p) =
  (if poptional p then None else Some (pkey p)) /\
  OptionalKeyFilter T (pkey p) =
  (if poptional p then Some (pkey p) else None).
Proof.
  intros Hp.
  pose proof fixed_values as Hf. rewrite Forall_forall in Hf.
  pose proof settled_values as Hs. rewrite forallb_forall in Hs.
  specialize (Hf p Hp). specialize (Hs p Hp).
  split; [exact Hf|]. split.
  - apply andb_true_iff in Hs as [_ Hs]. exact Hs.
  - apply settled_property_filters; [|exact Hs].
    now apply index_read.
Qed.

Lemma settled_halves :
  required_half Jsonify_member T = filter req T /\
  optional_half Jsonify_member T = filter poptional T.
Proof.
  unfold required_half, optional_half.
  rewrite <- (flat_map_select _ req T), <- (flat_map_select _ poptional T).
  split; apply flat_map_ext_In; intros p Hp;
    destruct (settled_property p Hp) as (Hf & Hs & HR & HO);
    rewrite ?HR, ?HO; clear HR HO;
    destruct p as [[k o] v]; unfold req, poptional, pkey, pshape in *;
    simpl in *; destruct o; simpl; try reflexivity.
  - now rewrite guarded_settled.
  - now rewrite guarded_defined_settled.
Qed.

Lemma settled_halves_disjoint (key : Key) :
  In key (keys (filter req T)) -> ~ In key (keys (filter poptional T)).
Proof.
  unfold keys. rewrite !in_map_iff.
  intros (p & <- & Hp) (q & E & Hq).
  apply filter_In in Hp as [Hp Hrp]. apply filter_In in Hq as [Hq Hoq].
  assert (q = p) as -> by now apply (same_key T distinct_keys).
  unfold req in Hrp. rewrite Hoq in Hrp. discriminate.
Qed.

Lemma record_settled :
  required_first T = true -> record_with Jsonify_member T = T.
Proof.
  intros Ho. unfold record_with.
  destruct settled_halves as [-> ->].
  rewrite Merge_disjoint.
  - now apply required_first_split.
  - apply settled_halves_disjoint.
Qed.
End SettledRecord.

Lemma settled_member_fixed (a : Atom) : fixed a.
Proof.
  induction a using Atom_ind; unfold fixed; simpl; intros Hs;
    try reflexivity; try discriminate Hs.
  - (* array *)
    apply andb_true_iff in Hs as [Hi Hs].
    now rewrite element_settled.
  - (* tuple *)
    do 2 f_equal. induction es as [|E es IH]; [reflexivity|].
    inversion H as [|? ? HE Hes]; subst.
    simpl in Hs |- *. apply andb_true_iff in Hs as [HsE Hs].
    apply andb_true_iff in HsE as [Hi HsE].
    rewrite element_settled by assumption. f_equal. now apply IH.
  - (* record *)
    apply andb_true_iff in Hs as [Hs Hv].
    apply andb_true_iff in Hs as [Hd Ho].
    rewrite record_settled; auto using distinct_NoDup.
Qed.

Lemma settled_fixed (S : Shape) : settled S = true -> Jsonify S = S.
Proof.
  intros Hs. apply guarded_settled; [|exact Hs].
  apply Forall_forall. intros a _. apply settled_member_fixed.
Qed.




(** Other shapes whose projection changes when projected again:
    [bigint[]], whose projection [never[]] projects to [null[]],
    [{x: {a: function}}], whose projection [{x: {}}] projects to [{}], and
    the adopted conversion target [{user: {name: string}}], which projects
    to [{}]. *)
Example Jsonify_twice_bigint_array :
  Jsonify [AArray [ABigint]] = [AArray never] /\
  Jsonify [AArray never] = [AArray [ANull]].
Proof. split; reflexivity. Qed.

Example Jsonify_twice_empty_record_value :
  Jsonify [ARecord [(KStr "x", false, [ARecord function_record])]] =
  [ARecord [(KStr "x", false, [ARecord []])]] /\
  Jsonify [ARecord [(KStr "x", false, [ARecord []])]] = [ARecord []].
Proof. split; reflexivity. Qed.

(** * Further properties of the source *)

(** ** Which keys the projected record has *)

(** The keys of the projected record are exactly the string keys of the
    record whose value shape is not assignable to symbol, has no member the
    function type is assignable to, and is not assignable to [undefined]:
    no key is invented or renamed, no symbol key survives. *)
Theorem projected_keys_exact (T : list Property) (key : Key) :
  In key (keys (Jsonify_record T)) <->
  In key (keys T) /\ symbol_key key = false /\
  extends (index T key) symbol = false /\
  function_extends (index T key) = false /\
  extends (index T key) undefined = false.
Proof.
  rewrite kept_key_iff. unfold BaseKeyFilter.
  destruct (symbol_key key), (extends (index T key) symbol),
    (function_extends (index T key)); intuition congruence.
Qed.

Section HalvesAsFilters.
Variables (F : Key -> option Key) (value : Property -> Shape)
          (modifier : Property -> bool).
Hypothesis F_key : forall k k', F k = Some k' -> k' = k.

Let kept (k : Key) : bool :=
  match F k with Some _ => true | None => false end.
Let half (l : list Property) : list Property :=
  flat_map (fun p : Property =>
              match F (pkey p) with
              | Some k => [(k, modifier p, value p)]
              | None => []
              end) l.

Lemma keys_half (l : list Property) : keys (half l) = filter kept (keys l).
Proof.
  unfold keys, half, kept. induction l as [|p l IH]; [reflexivity|].
  cbn [flat_map map filter]. rewrite map_app.
  destruct (F (pkey p)) as [k|] eqn:E; simpl; [|exact IH].
  rewrite (F_key _ _ E). f_equal. exact IH.
Qed.

Lemma length_half (l : list Property) :
  List.length (half l) = List.length (filter kept (keys l)).
Proof.
  rewrite <- keys_half. unfold keys. now rewrite length_map.
Qed.
End HalvesAsFilters.

Lemma keys_required_half (T : list Property) :
  keys (required_half Jsonify_member T) =
  filter (fun k => match RequiredKeyFilter T k with
                   | Some _ => true
                   | None => false
                   end) (keys T).
Proof.
  unfold required_half.
  apply (keys_half (RequiredKeyFilter T)
           (fun p => guarded Jsonify_member (pshape p)) poptional).
  apply RequiredKeyFilter_key.
Qed.

Lemma keys_optional_half (T : list Property) :
  keys (optional_half Jsonify_member T) =
  filter (fun k => match OptionalKeyFilter T k with
                   | Some _ => true
                   | None => false
                   end) (keys T).
Proof.
  unfold optional_half.
  apply (keys_half (OptionalKeyFilter T)
           (fun p => guarded_defined Jsonify_member (pshape p))
           (fun _ => true)).
  apply OptionalKeyFilter_key.
Qed.

Lemma length_two_filters (f g : Key -> bool) (l : list Key) :
  (forall k, f k = false \/ g k = false) ->
  List.length (filter f l) + List.length (filter g l) <= List.length l.
Proof.
  intros H. induction l as [|k l IH]; simpl; [lia|].
  destruct (H k) as [E|E]; rewrite E; destruct (f k), (g k); simpl; lia.
Qed.

(** The projected record has at most as many properties as the record:
    each property is kept once, by one of the two mapped types, or not at
    all. *)
Theorem projected_record_not_longer (T : list Property) :
  List.length (Jsonify_record T) <= List.length T.
Proof.
  rewrite Jsonify_record_append, length_app.
  rewrite <- (length_map pkey (required_half _ _)).
  rewrite <- (length_map pkey (optional_half _ _)).
  fold (keys (required_half Jsonify_member T)).
  fold (keys (optional_half Jsonify_member T)).
  rewrite keys_required_half, keys_optional_half.
  rewrite <- (length_map pkey T). fold (keys T).
  apply length_two_filters. intros k.
  destruct (filters_exclusive T k) as [-> | ->]; auto.
Qed.

(** A record with distinct keys projects to a record with distinct keys. *)
Theorem projected_keys_distinct (T : list Property) :
  NoDup (keys T) -> NoDup (keys (Jsonify_record T)).
Proof.
  intros Hd. rewrite Jsonify_record_append. unfold keys at 1.
  rewrite map_app.
  fold (keys (required_half Jsonify_member T)).
  fold (keys (optional_half Jsonify_member T)).
  apply NoDup_app.
  - rewrite keys_required_half. now apply NoDup_filter.
  - rewrite keys_optional_half. now apply NoDup_filter.
  - apply halves_disjoint.
Qed.

Lemma projected_keys_distinct_witness :
  NoDup (keys sample_record) /\ NoDup (keys (Jsonify_record sample_record)).
Proof.
  split; [exact sample_record_distinct|].
  exact (projected_keys_distinct sample_record sample_record_distinct).
Defined.

(** ** Modifiers *)

(** In a record with distinct keys, the property the projection has under
    the key of [p] is optional exactly when [undefined] is assignable to
    the value shape of [p]; in particular an optional property never
    becomes a required one. *)
Theorem projected_modifier (T : list Property) (p q : Property) :
  NoDup (keys T) -> In p T ->
  In q (Jsonify_record T) -> pkey q = pkey p ->
  poptional q = undefined_extends (read p) /\
  (poptional p = true -> poptional q = true).
Proof.
  intros Hd Hp Hq Hk.
  assert (E : poptional q = undefined_extends (read p)).
  { rewrite <- (index_read T Hd p Hp), <- Hk.
    rewrite (Jsonify_record_append T), in_app_iff in Hq.
    rewrite (In_required_half T Hd), (In_optional_half T Hd) in Hq.
    destruct Hq as [(k & _ & E & ->)|(k & _ & E & ->)];
      unfold pkey, poptional; simpl.
    - unfold RequiredKeyFilter in E.
      now destruct (undefined_extends (index T k)).
    - unfold OptionalKeyFilter in E.
      now destruct (undefined_extends (index T k)). }
  split; [exact E|]. intros Ho. rewrite E.
  now apply undefined_extends_read_optional.
Qed.

Lemma optional_string_record_distinct : NoDup (keys optional_string_record).
Proof. repeat constructor. simpl. tauto. Defined.

Lemma projected_modifier_witness :
  NoDup (keys optional_string_record) /\
  In (KStr "a", true, [AString]) optional_string_record /\
  In (KStr "a", true, [AString]) (Jsonify_record optional_string_record) /\
  poptional (KStr "a", true, [AString]) = true.
Proof.
  assert (Hin : In (KStr "a", true, [AString]) optional_string_record)
    by (simpl; left; reflexivity).
  assert (Hout : In (KStr "a", true, [AString])
                   (Jsonify_record optional_string_record))
    by (simpl; left; reflexivity).
  split; [exact optional_string_record_distinct|].
  split; [exact Hin | split; [exact Hout|]].
  destruct (projected_modifier optional_string_record
              (KStr "a", true, [AString]) (KStr "a", true, [AString])
              optional_string_record_distinct Hin Hout eq_refl) as [_ H].
  exact (H eq_refl).
Defined.

(** ** The record is read through [keyof] and indexed access only *)

Lemma filters_same_index (T T' : list Property) (key : Key) :
  index T key = index T' key ->
  RequiredKeyFilter T key = RequiredKeyFilter T' key /\
  OptionalKeyFilter T key = OptionalKeyFilter T' key.
Proof.
  intros E. unfold RequiredKeyFilter, OptionalKeyFilter, BaseKeyFilter.
  now rewrite E.
Qed.

(** Two records with distinct keys, the same keys in the same order and
    the same [Type[Key]] under every key have the same projection: whether
    [undefined] comes from a [?] modifier or from the declared shape makes
    no difference. *)
Theorem Jsonify_record_by_index (T T' : list Property) :
  NoDup (keys T) -> keys T' = keys T ->
  (forall key, index T' key = index T key) ->
  Jsonify_record T' = Jsonify_record T.
Proof.
  intros Hd Hk Hi.
  assert (Hd' : NoDup (keys T')) by now rewrite Hk.
  rewrite !Jsonify_record_append.
  rewrite (required_half_source T Hd), (required_half_source T' Hd').
  rewrite (optional_half_source T Hd), (optional_half_source T' Hd').
  rewrite Hk. f_equal; apply flat_map_ext_In; intros key _;
    destruct (filters_same_index T' T key (Hi key)) as [HR HO];
    rewrite ?HR, ?HO, Hi; reflexivity.
Qed.

Lemma Jsonify_record_by_index_witness :
  NoDup (keys optional_string_record) /\
  keys string_or_undefined_record = keys optional_string_record /\
  Jsonify_record string_or_undefined_record =
  Jsonify_record optional_string_record.
Proof.
  split; [exact optional_string_record_distinct | split; [reflexivity|]].
  apply (Jsonify_record_by_index optional_string_record
           string_or_undefined_record optional_string_record_distinct
           eq_refl).
  intros key. simpl. destruct (Key_eqb (KStr "a") key); reflexivity.
Defined.

(** ** Unions *)

Lemma accepted_app (A B : Shape) :
  accepted (A ++ B) = accepted A && accepted B.
Proof.
  unfold accepted. rewrite !is_never_Extract. apply forallb_app.
Qed.

Lemma accepted_Union (Ss : list Shape) :
  accepted (Union Ss) = forallb accepted Ss.
Proof.
  induction Ss as [|S Ss IH]; [reflexivity|].
  unfold Union in *. simpl. now rewrite accepted_app, IH.
Qed.

Lemma Jsonify_app (A B : Shape) :
  Jsonify (A ++ B) =
  if accepted A && accepted B then Jsonify A ++ Jsonify B else never.
Proof.
  unfold Jsonify, guarded. fold (accepted (A ++ B)) (accepted A) (accepted B).
  rewrite accepted_app.
  destruct (accepted A), (accepted B); simpl; try reflexivity.
  apply flat_map_app.
Qed.

(** The projection of a union of shapes is the union of their projections
    when each of them passes the outer test of line 92, and the empty shape
    as soon as one of them does not. *)
Theorem Jsonify_Union (Ss : list Shape) :
  Jsonify (Union Ss) =
  if forallb accepted Ss then Union (map Jsonify Ss) else never.
Proof.
  induction Ss as [|S Ss IH]; [reflexivity|].
  change (Union (S :: Ss)) with (S ++ Union Ss).
  rewrite Jsonify_app, accepted_Union, IH. simpl.
  destruct (accepted S), (forallb accepted Ss); reflexivity.
Qed.

Example Jsonify_union_of_objects :
  Jsonify (Union [[ABoxedNumber]; [AToJSON [AString]]; [ANull]]) =
  [ANumber; AString; ANull].
Proof. reflexivity. Qed.

(** ** Nested conversions *)

(** A conversion is looked through to any depth: behind one or more nested
    [toJSON] methods, the innermost target [J] is adopted when it is
    assignable to the JSON-value shape and projected otherwise. *)
Theorem Jsonify_conversions (n : nat) (J : Shape) :
  Jsonify (conversions (S n) J) = if JsonValue J then J else Jsonify J.
Proof.
  induction n as [|n IH].
  - simpl. now rewrite Jsonify_single.
  - change (conversions (S (S n)) J)
      with [AToJSON (conversions (S n) J)].
    rewrite Jsonify_single by reflexivity.
    exact IH.
Qed.

(** ** Shapes the projection leaves unchanged *)



(** ** Members that are rejected one level down *)

(** In a record with distinct keys, a key that passes [BaseKeyFilter] and
    whose value shape has a member assignable to [NotJsonable | bigint]
    other than [undefined] (a bigint, or a symbol beside other members) is
    not dropped: it is kept, with its modifier, holding the empty shape. *)
Theorem rejected_value_projects_empty (T : list Property) (key : Key)
        (a : Atom) :
  NoDup (keys T) -> In key (keys T) ->
  BaseKeyFilter T key = Some key ->
  In a (index T key) -> rejected a = true -> undefined a = false ->
  In (key, undefined_extends (index T key), never) (Jsonify_record T).
Proof.
  intros Hd Hk Hb Ha Hr Hu.
  rewrite Jsonify_record_append, in_app_iff.
  rewrite (In_required_half T Hd), (In_optional_half T Hd).
  destruct (undefined_extends (index T key)) eqn:Eu; [right | left];
    exists key; (split; [exact Hk|]).
  - split.
    + unfold OptionalKeyFilter. rewrite Eu.
      replace (extends (index T key) undefined) with false; [exact Hb|].
      symmetry. unfold extends.
      destruct (forallb undefined (index T key)) eqn:E; [|reflexivity].
      rewrite forallb_forall in E. specialize (E a Ha). congruence.
    + f_equal. symmetry.
      apply (guarded_rejects Jsonify_member _ a); [|exact Hr].
      unfold Exclude. apply filter_In. split; [exact Ha|].
      now rewrite Hu.
  - split.
    + unfold RequiredKeyFilter. now rewrite Eu.
    + f_equal. symmetry.
      now apply (guarded_rejects Jsonify_member _ a).
Qed.

Lemma bigint_record_distinct : NoDup (keys bigint_record).
Proof. repeat constructor. simpl. tauto. Defined.

Lemma rejected_value_projects_empty_witness :
  NoDup (keys bigint_record) /\
  In (KStr "a") (keys bigint_record) /\
  BaseKeyFilter bigint_record (KStr "a") = Some (KStr "a") /\
  In ABigint (index bigint_record (KStr "a")) /\
  In (KStr "a", false, never) (Jsonify_record bigint_record).
Proof.
  assert (Hk : In (KStr "a") (keys bigint_record))
    by (simpl; left; reflexivity).
  assert (Ha : In ABigint (index bigint_record (KStr "a")))
    by (simpl; left; reflexivity).
  split; [exact bigint_record_distinct|].
  split; [exact Hk | split; [reflexivity | split; [exact Ha|]]].
  exact (rejected_value_projects_empty bigint_record (KStr "a") ABigint
           bigint_record_distinct Hk eq_refl Ha eq_refl eq_refl).
Defined.

(** An array or tuple element whose shape mixes a member assignable to
    [NotJsonable | bigint] with a member not assignable to [NotJsonable]
    is neither replaced by null nor projected member by member: it becomes
    the empty shape. *)
Theorem mixed_element_projects_empty (E : Shape) (a b : Atom) :
  In a E -> rejected a = true ->
  In b E -> NotJsonable b = false ->
  Jsonify [AArray E] = [AArray never] /\
  Jsonify [ATuple [E]] = [ATuple [never]].
Proof.
  intros Ha Hr Hb Hn.
  assert (He : element Jsonify_member E = never).
  { unfold element.
    replace (extends E NotJsonable) with false.
    - now apply (guarded_rejects Jsonify_member E a).
    - symmetry. unfold extends.
      destruct (forallb NotJsonable E) eqn:X; [|reflexivity].
      rewrite forallb_forall in X. specialize (X b Hb). congruence. }
  split; rewrite Jsonify_single by reflexivity; simpl; now rewrite He.
Qed.

Lemma mixed_element_projects_empty_witness :
  In AUndefined [AString; AUndefined] /\ In AString [AString; AUndefined] /\
  Jsonify [AArray [AString; AUndefined]] = [AArray never].
Proof.
  assert (Ha : In AUndefined [AString; AUndefined])
    by (simpl; right; left; reflexivity).
  assert (Hb : In AString [AString; AUndefined])
    by (simpl; left; reflexivity).
  split; [exact Ha | split; [exact Hb|]].
  exact (proj1 (mixed_element_projects_empty [AString; AUndefined]
                  AUndefined AString Ha eq_refl Hb eq_refl)).
Defined.

(** ** The function type and records named like its members *)

(** The function type is assignable to [{name: string}] and to
    [{length: number}], so line 15 drops a key that holds one of them; it
    is not assignable to [{name: number}], to [{title: string}], nor to the
    weak type [{name?: string}]. *)
Example function_assignable_to_members :
  function_assignable_to (ARecord [(KStr "name", false, [AString])]) = true /\
  function_assignable_to (ARecord [(KStr "length", false, [ANumber])]) = true /\
  function_assignable_to (ARecord [(KStr "name", false, [ANumber])]) = false /\
  function_assignable_to (ARecord [(KStr "title", false, [AString])]) = false /\
  function_assignable_to (ARecord [(KStr "name", true, [AString])]) = false.
Proof. repeat split. Qed.

Example Jsonify_user_record :
  Jsonify [ARecord user_record] = [ARecord []] /\
  Jsonify [AToJSON [ARecord user_record]] = [ARecord user_record] /\
  settled [ARecord user_record] = false.
Proof. repeat split. Qed.
